(** * Quiz application: generation-validation pipeline and session progression

    A shallow embedding of [app.py]: the validation that [generate_quizzes]
    applies to the parsed answer of the text-generation service, and the
    progression of the Flask session through the [/start], [/quiz],
    [/answer] and [/result] handlers. *)

From Stdlib Require Import ZArith String Ascii Bool Lia.
From Stdlib Require Import Floats.SpecFloat.
From stdpp Require Import base option list.

Local Open Scope string_scope.
Local Open Scope Z_scope.
Local Open Scope list_scope.

(** ** Python values produced by [json.loads] *)

(** [json.loads] yields [None], [bool], [int], [float], [str], [list] and
    [dict].  A dict keeps its keys in insertion order, so it is kept as an
    association list; a float is kept by its exact IEEE value. *)
#[warnings="-register-all"]
Inductive json : Type :=
| JNull
| JBool (b : bool)
| JInt (n : Z)
| JFloat (f : spec_float)
| JStr (s : string)
| JList (l : list json)
| JDict (kv : list (string * json)).

(** ** Exceptions *)

Inductive exception : Type :=
| APIError
| JSONDecodeError
| TypeError
| KeyError
| IndexError
| ValueError.

(** A computation either returns or raises. *)
Inductive exc (A : Type) : Type :=
| Ok (a : A)
| Raise (e : exception).
Arguments Ok {A} a.
Arguments Raise {A} e.

#[global] Instance exc_ret : MRet exc := fun _ a => Ok a.
#[global] Instance exc_bind : MBind exc := fun _ _ f m =>
  match m with
  | Ok a => f a
  | Raise e => Raise e
  end.

(** Python's short-circuit [and] on conditions that may raise: the right
    operand is evaluated only when the left one is true. *)
Definition and_then (a b : exc bool) : exc bool :=
  match a with
  | Ok true => b
  | Ok false => Ok false
  | Raise e => Raise e
  end.
Infix "&&&" := and_then (at level 40, left associativity).

(** ** Python operations used by the program *)

Module Py.

(** [d[key]] and [key in d] on the entries of a dict. *)
Fixpoint dict_get (kv : list (string * json)) (key : string) : option json :=
  match kv with
  | [] => None
  | (k, v) :: rest => if String.eqb k key then Some v else dict_get rest key
  end.

Definition dict_has (kv : list (string * json)) (key : string) : bool :=
  match dict_get kv key with
  | Some _ => true
  | None => false
  end.

(** [sub in s] on strings: [sub] occurs somewhere in [s]. *)
Fixpoint is_substring (sub s : string) : bool :=
  String.prefix sub s ||
  match s with
  | EmptyString => false
  | String _ rest => is_substring sub rest
  end.

(** [key == v] for a string [key]: only a string can be equal to it. *)
Definition str_eq (key : string) (v : json) : bool :=
  match v with
  | JStr s => String.eqb key s
  | _ => false
  end.

(** [key in quiz] for a string [key]: key membership on a dict, element
    membership on a list, substring on a string, [TypeError] on anything
    that is not a container. *)
Definition contains (key : string) (quiz : json) : exc bool :=
  match quiz with
  | JDict kv => Ok (dict_has kv key)
  | JList l => Ok (existsb (str_eq key) l)
  | JStr s => Ok (is_substring key s)
  | JNull | JBool _ | JInt _ | JFloat _ => Raise TypeError
  end.

(** [quiz[key]] for a string [key]: a dict looks the key up ([KeyError] when
    it is absent); lists and strings refuse a string index and the other
    values are not subscriptable ([TypeError]). *)
Definition getitem (quiz : json) (key : string) : exc json :=
  match quiz with
  | JDict kv =>
      match dict_get kv key with
      | Some v => Ok v
      | None => Raise KeyError
      end
  | _ => Raise TypeError
  end.

(** [isinstance(v, list)]. *)
Definition is_list (v : json) : bool :=
  match v with
  | JList _ => true
  | _ => false
  end.

(** [isinstance(v, int)] with the value of [v] as an int: [bool] is a
    subclass of [int], [True] being 1 and [False] being 0. *)
Definition as_int (v : json) : option Z :=
  match v with
  | JInt n => Some n
  | JBool b => Some (if b then 1 else 0)
  | _ => None
  end.

Definition is_int (v : json) : bool :=
  match as_int v with
  | Some _ => true
  | None => false
  end.

(** The number of characters of a string held as UTF-8 bytes: the bytes
    that do not continue a character. *)
Fixpoint str_len (s : string) : nat :=
  match s with
  | EmptyString => 0
  | String a rest =>
      let b := Z.of_nat (nat_of_ascii a) in
      let continues := Z.land b 192 =? 128 in
      ((if continues then 0 else 1) + str_len rest)%nat
  end.

(** [len(v)]: the size of a list, a dict or a string; the other values have
    no length. *)
Definition len (v : json) : exc Z :=
  match v with
  | JList l => Ok (Z.of_nat (length l))
  | JDict kv => Ok (Z.of_nat (length kv))
  | JStr s => Ok (Z.of_nat (str_len s))
  | JNull | JBool _ | JInt _ | JFloat _ => Raise TypeError
  end.

(** [z == f] for an int and a float compares the exact values. *)
Definition int_eq_float (z : Z) (f : spec_float) : bool :=
  match f with
  | S754_zero _ => z =? 0
  | S754_finite s m e =>
      let v := if s then Z.neg m else Z.pos m in
      if 0 <=? e then z =? v * 2 ^ e else z * 2 ^ (- e) =? v
  | S754_infinity _ | S754_nan => false
  end.

(** [z == v] for an int [z]. *)
Definition int_eq (z : Z) (v : json) : bool :=
  match v with
  | JInt n => z =? n
  | JBool b => z =? (if b then 1 else 0)
  | JFloat f => int_eq_float z f
  | JNull | JStr _ | JList _ | JDict _ => false
  end.

(** [l[i]] on a list: a negative index counts from the end, and an index
    outside [-len(l), len(l))] raises [IndexError]. *)
Definition index {A : Type} (l : list A) (i : Z) : exc A :=
  let n := Z.of_nat (length l) in
  let j := if i <? 0 then i + n else i in
  if (j <? 0) || (n <=? j) then Raise IndexError
  else match l !! Z.to_nat j with
       | Some x => Ok x
       | None => Raise IndexError
       end.

End Py.

(** ** Quiz generation: [generate_quizzes] *)

(** What lines 36-47 leave behind: the call to the service raised, the text
    it returned was refused by [json.loads], or [json.loads] returned a
    value. *)
Inductive response : Type :=
| ServiceRaises
| NotJson
| Parsed (quizzes : json).

(** The dict [{'questions': valid_quizzes}] that [generate_quizzes] returns. *)
Record quizset : Type := QuizSet { questions : list json }.

(** The condition of lines 61-63 on one element of [questions]. *)
Definition check_quiz (quiz : json) : exc bool :=
  Py.contains "question" quiz &&&
  Py.contains "options" quiz &&&
  Py.contains "correct_answer_index" quiz &&&
  (o ← Py.getitem quiz "options"; Ok (Py.is_list o)) &&&
  (o ← Py.getitem quiz "options"; n ← Py.len o; Ok (n =? 4)) &&&
  (c ← Py.getitem quiz "correct_answer_index"; Ok (Py.is_int c)) &&&
  (c ← Py.getitem quiz "correct_answer_index";
   Ok match Py.as_int c with
      | Some n => (0 <=? n) && (n <? 4)
      | None => false
      end).

(** The loop of lines 59-64 with [valid_quizzes] as it stands so far: an
    element that passes the check is appended, an exception raised by the
    check leaves the loop. *)
Fixpoint validate_loop (qs valid_quizzes : list json) : exc (list json) :=
  match qs with
  | [] => Ok valid_quizzes
  | quiz :: rest =>
      ok ← check_quiz quiz;
      validate_loop rest
        (if ok : bool then valid_quizzes ++ [quiz] else valid_quizzes)
  end.

(** The body of the [try] block from line 47 on. *)
Definition generate_body (r : response) (count : Z) : exc (option quizset) :=
  match r with
  | ServiceRaises => Raise APIError
  | NotJson => Raise JSONDecodeError
  | Parsed quizzes =>
      match quizzes with
      | JDict kv =>
          match Py.dict_get kv "questions" with
          | None => Ok None
          | Some (JList qs) =>
              if Z.of_nat (length qs) <? count then Ok None
              else
                valid_quizzes ← validate_loop qs [];
                if Z.of_nat (length valid_quizzes) <? count then Ok None
                else Ok (Some (QuizSet valid_quizzes))
          | Some _ => Ok None
          end
      | _ => Ok None
      end
  end.

(** [generate_quizzes(category, count)]: whatever the body raises is caught
    by [except Exception] and turned into [None].  The category only enters
    the prompt. *)
Definition generate_quizzes (r : response) (count : Z) : option quizset :=
  match generate_body r count with
  | Ok result => result
  | Raise _ => None
  end.

(** ** The session and its handlers *)

(** The Flask session: a dict in which each of the five keys the program
    uses is present or absent. *)
Record session : Type := Session {
  quizzes : option quizset;
  current_question : option Z;
  score : option Z;
  category : option string;
  total_questions : option Z
}.

(** [session.get(key, 0)] on the integer keys. *)
Definition get_current (s : session) : Z := default 0 (current_question s).
Definition get_score (s : session) : Z := default 0 (score s).
Definition get_total (s : session) : Z := default 0 (total_questions s).

(** [quizzes['questions']] after [quizzes = session.get('quizzes', {})]:
    the empty default has no such key. *)
Definition get_questions (s : session) : exc (list json) :=
  match quizzes s with
  | Some q => Ok (questions q)
  | None => Raise KeyError
  end.

(** The category of the form, ['地理'] when the field is absent. *)
Definition default_category : string := "地理".

(** Lines 92-96 of [start]: the session of an accepted quiz set. *)
Definition new_session (q : quizset) (cat : string) : session :=
  {| quizzes := Some q;
     current_question := Some 0;
     score := Some 0;
     category := Some cat;
     total_questions := Some (Z.of_nat (length (questions q))) |}.

(** Where a handler sends the browser. *)
Inductive reply : Type :=
| RedirectIndex
| RedirectQuiz
| RedirectResult
| RenderQuiz (question options : json) (question_number total : Z)
| RenderResult (score total : Z) (category : string).

(** [/start]: [generate_quizzes] is called with its default count of 5. *)
Definition start (form_category : option string) (r : response) (s : session)
  : session * reply :=
  let cat := default default_category form_category in
  match generate_quizzes r 5 with
  | None => (s, RedirectIndex)
  | Some q => (new_session q cat, RedirectQuiz)
  end.

(** [/quiz]: the current question, or the way to the result page. *)
Definition quiz (s : session) : exc reply :=
  let current := get_current s in
  match quizzes s with
  | None => Ok RedirectResult
  | Some q =>
      if (length (questions q) =? 0)%nat then Ok RedirectResult
      else if Z.of_nat (length (questions q)) <=? current then Ok RedirectResult
      else
        quiz_data ← Py.index (questions q) current;
        question ← Py.getitem quiz_data "question";
        options ← Py.getitem quiz_data "options";
        Ok (RenderQuiz question options (current + 1)
                       (Z.of_nat (length (questions q))))
  end.

(** The form field [option] as [int(request.form.get('option', 0))] sees
    it: absent, a text that [int] converts, or a text that [int] refuses. *)
Inductive form_option : Type :=
| OptionAbsent
| OptionInt (z : Z)
| OptionNotInt.

Definition selected_option (f : form_option) : exc Z :=
  match f with
  | OptionAbsent => Ok 0
  | OptionInt z => Ok z
  | OptionNotInt => Raise ValueError
  end.

(** Lines 131-139 of [answer], once the selected option is an int: the score
    grows when the current question exists and the selection equals its
    correct index; the current question advances in every case.  The reply
    is always the redirection to [/quiz]. *)
Definition submitAnswer (selected : Z) (s : session) : exc session :=
  let current := get_current s in
  qs ← get_questions s;
  hit ← Ok (current <? Z.of_nat (length qs)) &&&
        (quiz_data ← Py.index qs current;
         correct ← Py.getitem quiz_data "correct_answer_index";
         Ok (Py.int_eq selected correct));
  let s1 :=
    if hit : bool then
      {| quizzes := quizzes s;
         current_question := current_question s;
         score := Some (get_score s + 1);
         category := category s;
         total_questions := total_questions s |}
    else s in
  Ok {| quizzes := quizzes s1;
        current_question := Some (current + 1);
        score := score s1;
        category := category s1;
        total_questions := total_questions s1 |}.

(** [/answer]. *)
Definition answer (f : form_option) (s : session) : exc session :=
  selected ← selected_option f;
  submitAnswer selected s.

(** [/result]: the score and the total saved by [start]. *)
Definition result (s : session) : reply :=
  RenderResult (get_score s) (get_total s)
               (default default_category (category s)).

(** A sequence of answers, one after the other. *)
Fixpoint submit_all (selected : list Z) (s : session) : exc session :=
  match selected with
  | [] => Ok s
  | z :: rest => s' ← submitAnswer z s; submit_all rest s'
  end.

(** The number of questions of the session's quiz set. *)
Definition size (s : session) : Z :=
  match quizzes s with
  | Some q => Z.of_nat (length (questions q))
  | None => 0
  end.

(** The session is complete when [/quiz] sends the browser to the result. *)
Definition isComplete (s : session) : bool :=
  match quiz s with
  | Ok RedirectResult => true
  | _ => false
  end.

(** The sessions the program can be in: the one [start] builds from an
    accepted quiz set, and those that answers lead to. *)
Inductive reachable : session → Prop :=
| reachable_new r count q cat :
    generate_quizzes r count = Some q →
    reachable (new_session q cat)
| reachable_submit s selected s' :
    reachable s →
    submitAnswer selected s = Ok s' →
    reachable s'.

(** ** The elements that pass the check *)

(** An element passes when the check returns [True]. *)
Definition passes (quiz : json) : bool :=
  match check_quiz quiz with
  | Ok true => true
  | _ => false
  end.

(** The value under ['questions'] of a parsed answer, and its elements when
    it is a list. *)
Definition questions_value (r : response) : option json :=
  match r with
  | Parsed (JDict kv) => Py.dict_get kv "questions"
  | _ => None
  end.

Definition elements (r : response) : list json :=
  match questions_value r with
  | Some (JList qs) => qs
  | _ => []
  end.

Definition valid_elements (r : response) : list json :=
  filter (λ quiz, passes quiz) (elements r).

(** The three kinds of failure the caller would have to tell apart. *)
Inductive failure_kind : Type :=
| ServiceError
| ParseError
| SchemaError.

(** *** Sample data *)

Definition sample_question (correct : json) : json :=
  JDict [("question", JStr "q");
         ("options", JList [JStr "a"; JStr "b"; JStr "c"; JStr "d"]);
         ("correct_answer_index", correct)].

Definition sample_response (qs : list json) : response :=
  Parsed (JDict [("questions", JList qs)]).

(** ** Notions used to state the properties of the session *)

(** The correct index of a question as an int, when it has one. *)
Definition correct_index (quiz : json) : option Z :=
  match Py.getitem quiz "correct_answer_index" with
  | Ok c => Py.as_int c
  | Raise _ => None
  end.

(** The session after an answer: the score grows on a hit, the current
    question advances. *)
Definition advance (hit : bool) (s : session) : session :=
  {| quizzes := quizzes s;
     current_question := Some (get_current s + 1);
     score := if hit then Some (get_score s + 1) else score s;
     category := category s;
     total_questions := total_questions s |}.

(** What holds of the sessions the program builds: the quiz set is there and
    its questions passed the check, the counters are set, and the score is
    bounded by the answers given and by the questions there are. *)
Definition session_inv (s : session) : Prop :=
  ∃ q c sc,
    quizzes s = Some q ∧
    Forall (λ quiz, passes quiz) (questions q) ∧
    current_question s = Some c ∧
    score s = Some sc ∧
    total_questions s = Some (Z.of_nat (length (questions q))) ∧
    0 ≤ sc ∧ sc ≤ c ∧ sc ≤ Z.of_nat (length (questions q)).

(** The bound the specification states on the counters of a session. *)
Definition score_bound (s : session) : Prop :=
  0 ≤ get_score s ∧ get_score s ≤ get_current s ∧ get_current s ≤ size s.

(** A quiz set of one question whose correct option is the second, and the
    session [start] builds from it. *)
Definition one_question : quizset := QuizSet [sample_question (JInt 1)].
Definition one_question_session : session := new_session one_question "c".

(** ** The routes *)

(** The requests the application answers, with what they carry: the form
    of [/start] (and what the service will answer), the form of [/answer]. *)
Inductive request : Type :=
| GetIndex
| PostStart (form_category : option string) (r : response)
| GetQuiz
| PostAnswer (f : form_option)
| GetResult.

(** What is sent back: the start page of [index], or the reply of one of
    the other handlers. *)
Inductive page : Type :=
| IndexPage
| Page (rep : reply).

(** One request on a session: the handler of its route.  [index] and
    [result] only render, [answer] redirects to [/quiz]. *)
Definition handle (req : request) (s : session) : exc (session * page) :=
  match req with
  | GetIndex => Ok (s, IndexPage)
  | PostStart form_category r =>
      let (s', rep) := start form_category r s in Ok (s', Page rep)
  | GetQuiz => rep ← quiz s; Ok (s, Page rep)
  | PostAnswer f => s' ← answer f s; Ok (s', Page RedirectQuiz)
  | GetResult => Ok (s, Page (result s))
  end.

(** A sequence of requests of one browser, the session going from one to
    the next; an exception ends it. *)
Fixpoint serve (reqs : list request) (s : session) : exc (session * list page) :=
  match reqs with
  | [] => Ok (s, [])
  | req :: rest =>
      '(s1, p) ← handle req s;
      '(s2, pages) ← serve rest s1;
      Ok (s2, p :: pages)
  end.

(** The requests whose form [int] accepts. *)
Definition int_request (req : request) : Prop :=
  req ≠ PostAnswer OptionNotInt.

(** ** Notions used to state further properties *)

(** A well-formed question: a dict with a text, four options in a list and
    an int between 0 and 3 as correct index. *)
Definition well_formed (quiz : json) : Prop :=
  ∃ kv text opts c n,
    quiz = JDict kv ∧
    Py.dict_get kv "question" = Some text ∧
    Py.dict_get kv "options" = Some (JList opts) ∧
    length opts = 4%nat ∧
    Py.dict_get kv "correct_answer_index" = Some c ∧
    Py.as_int c = Some n ∧ 0 ≤ n < 4.

(** The values on which a membership test raises. *)
Definition not_container (quiz : json) : Prop :=
  match quiz with
  | JNull | JBool _ | JInt _ | JFloat _ => True
  | JStr _ | JList _ | JDict _ => False
  end.

(** The selection is the correct index of the question. *)
Definition answered_right (z : Z) (quiz : json) : bool :=
  match correct_index quiz with
  | Some n => z =? n
  | None => false
  end.

(** The number of selections that are right, the first selection being for
    the first question and so on; selections beyond the last question and
    questions beyond the last selection do not count. *)
Fixpoint hits (selected : list Z) (qs : list json) : Z :=
  match selected, qs with
  | z :: selected', quiz :: qs' =>
      (if answered_right z quiz then 1 else 0) + hits selected' qs'
  | _, _ => 0
  end.

(** The session of a browser that has not been through [/start]. *)
Definition empty_session : session := Session None None None None None.

(** * Properties of the generation pipeline *)

Section Validation.

Implicit Types (quiz : json) (qs acc : list json) (count : Z).

(** An element on which the check returns at all is a container; on a value
    that is no container the membership test raises. *)
Lemma check_quiz_not_container quiz :
  match quiz with
  | JNull | JBool _ | JInt _ | JFloat _ => check_quiz quiz = Raise TypeError
  | _ => True
  end.
Proof. by destruct quiz. Qed.

(** What passing the check means: the element is a dict with the three keys,
    four options in a list and an int index between 0 and 3. *)
Lemma passes_inv quiz :
  passes quiz = true →
  ∃ kv text opts c n,
    quiz = JDict kv ∧
    Py.dict_get kv "question" = Some text ∧
    Py.dict_get kv "options" = Some (JList opts) ∧
    length opts = 4%nat ∧
    Py.dict_get kv "correct_answer_index" = Some c ∧
    Py.as_int c = Some n ∧ 0 ≤ n < 4.
Proof.
  unfold passes, check_quiz.
  destruct quiz as [| | | |s|l|kv]; try done; simpl.
  - destruct (Py.is_substring "question" s),
      (Py.is_substring "options" s),
      (Py.is_substring "correct_answer_index" s); done.
  - destruct (existsb (Py.str_eq "question") l),
      (existsb (Py.str_eq "options") l),
      (existsb (Py.str_eq "correct_answer_index") l); done.
  - unfold Py.dict_has.
    destruct (Py.dict_get kv "question") as [text|] eqn:Hq; [|done].
    destruct (Py.dict_get kv "options") as [o|] eqn:Ho; [|done].
    destruct (Py.dict_get kv "correct_answer_index") as [c|] eqn:Hi; [|done].
    simpl. destruct o as [| | | | |opts|]; try done; simpl.
    destruct (Z.eqb_spec (Z.of_nat (length opts)) 4) as [Hlen|]; [|done]; simpl.
    unfold Py.is_int. destruct (Py.as_int c) as [n|] eqn:Hc; [|done]; simpl.
    destruct (Z.leb_spec 0 n), (Z.ltb_spec n 4); try done. intros _.
    exists kv, text, opts, c, n. repeat split; try done; lia.
Qed.

(** Conversely a dict of that shape passes, whatever else it carries. *)
Lemma passes_intro kv text opts c n :
  Py.dict_get kv "question" = Some text →
  Py.dict_get kv "options" = Some (JList opts) →
  length opts = 4%nat →
  Py.dict_get kv "correct_answer_index" = Some c →
  Py.as_int c = Some n → 0 ≤ n < 4 →
  passes (JDict kv) = true.
Proof.
  intros Hq Ho Hlen Hc Hn Hrange.
  unfold passes, check_quiz, Py.contains, Py.getitem, Py.dict_has, Py.is_int.
  rewrite Hq, Ho, Hc. simpl. rewrite Hlen, Hn. simpl.
  destruct (Z.leb_spec 0 n), (Z.ltb_spec n 4); try done; lia.
Qed.

(** On a dict the check never raises. *)
Lemma check_quiz_dict kv : check_quiz (JDict kv) = Ok (passes (JDict kv)).
Proof.
  unfold passes, check_quiz, Py.contains, Py.getitem, Py.dict_has.
  destruct (Py.dict_get kv "question"); [|done].
  destruct (Py.dict_get kv "options") as [o|]; [|done].
  destruct (Py.dict_get kv "correct_answer_index") as [c|]; [|done].
  simpl. destruct o; try done; simpl.
  destruct (_ =? 4); [|done]; simpl.
  destruct (Py.is_int c); [|done]; simpl.
  by destruct (Py.as_int c) as [n|]; [destruct (_ && _)|].
Qed.

(** The outcome of the check decides whether the element passes. *)
Lemma passes_check quiz b : check_quiz quiz = Ok b → passes quiz = b.
Proof. unfold passes. intros ->. by destruct b. Qed.

Lemma filter_passes_cons quiz rest :
  filter (λ quiz, passes quiz) (quiz :: rest)
  = if passes quiz then quiz :: filter (λ quiz, passes quiz) rest
    else filter (λ quiz, passes quiz) rest.
Proof.
  rewrite filter_cons. destruct (passes quiz) eqn:Hp.
  - by rewrite decide_True by exact I.
  - by rewrite decide_False by exact id.
Qed.

(** If the loop ends, it has appended the passing elements in their order. *)
Lemma validate_loop_filter qs acc valid :
  validate_loop qs acc = Ok valid →
  valid = acc ++ filter (λ quiz, passes quiz) qs.
Proof.
  revert acc. induction qs as [|quiz rest IH]; intros acc; simpl.
  - intros [= <-]. by rewrite app_nil_r.
  - rewrite filter_passes_cons.
    destruct (check_quiz quiz) as [b|] eqn:Hcheck; simpl; [|done].
    rewrite (passes_check _ _ Hcheck). intros ->%IH.
    destruct b; [by rewrite <- app_assoc|done].
Qed.

(** The loop ends when the check returns on every element. *)
Lemma validate_loop_returns qs acc :
  Forall (λ quiz, ∃ b, check_quiz quiz = Ok b) qs →
  validate_loop qs acc = Ok (acc ++ filter (λ quiz, passes quiz) qs).
Proof.
  intros Hall. revert acc.
  induction Hall as [|quiz rest [b Hb] _ IH]; intros acc; simpl.
  - by rewrite app_nil_r.
  - rewrite Hb. simpl. rewrite IH, filter_passes_cons, (passes_check _ _ Hb).
    destruct b; [by rewrite <- app_assoc|done].
Qed.

(** The loop is left as soon as the check raises on an element. *)
Lemma validate_loop_raises qs acc quiz e :
  quiz ∈ qs → check_quiz quiz = Raise e →
  ∃ e', validate_loop qs acc = Raise e'.
Proof.
  intros Hin Hraise. revert acc.
  induction Hin as [quiz rest|quiz other rest _ IH]; intros acc; simpl.
  - rewrite Hraise. by eexists.
  - destruct (check_quiz other) as [b|e']; simpl; [apply IH, Hraise|by eexists].
Qed.

(** A successful call: the answer was a dict whose ['questions'] is a list
    of at least [count] elements, the loop ended, and the result holds the
    passing elements, at least [count] of them. *)
Lemma generate_quizzes_Some r count q :
  generate_quizzes r count = Some q →
  ∃ kv qs,
    r = Parsed (JDict kv) ∧
    Py.dict_get kv "questions" = Some (JList qs) ∧
    count ≤ Z.of_nat (length qs) ∧
    validate_loop qs [] = Ok (questions q) ∧
    questions q = valid_elements r ∧
    count ≤ Z.of_nat (length (questions q)).
Proof.
  unfold generate_quizzes, generate_body, valid_elements, elements.
  destruct r as [| |[| | | | | |kv]]; try done; simpl.
  destruct (Py.dict_get kv "questions") as [[| | | | |qs|]|] eqn:Hget; try done.
  destruct (Z.ltb_spec (Z.of_nat (length qs)) count); [done|].
  destruct (validate_loop qs []) as [valid|] eqn:Hloop; [|done]; simpl.
  destruct (Z.ltb_spec (Z.of_nat (length valid)) count); [done|].
  intros [= <-]. exists kv, qs. simpl.
  by rewrite (validate_loop_filter _ _ _ Hloop) at 2.
Qed.

(** A call on an answer all of whose elements can be checked succeeds as
    soon as enough of them pass. *)
Lemma generate_quizzes_accepts kv qs count :
  Py.dict_get kv "questions" = Some (JList qs) →
  Forall (λ quiz, ∃ b, check_quiz quiz = Ok b) qs →
  count ≤ Z.of_nat (length (filter (λ quiz, passes quiz) qs)) →
  generate_quizzes (Parsed (JDict kv)) count
  = Some (QuizSet (filter (λ quiz, passes quiz) qs)).
Proof.
  intros Hget Hall Hcount.
  unfold generate_quizzes, generate_body. rewrite Hget.
  pose proof (length_filter (λ quiz, passes quiz) qs).
  destruct (Z.ltb_spec (Z.of_nat (length qs)) count); [lia|].
  rewrite (validate_loop_returns _ [] Hall). simpl.
  by destruct (Z.ltb_spec (Z.of_nat (length (filter (λ quiz, passes quiz) qs))) count); [lia|].
Qed.

(** A call cannot succeed with fewer than [count] passing elements. *)
Lemma generate_quizzes_too_few r count :
  Z.of_nat (length (valid_elements r)) < count →
  generate_quizzes r count = None.
Proof.
  intros Hfew.
  destruct (generate_quizzes r count) as [q|] eqn:Hgen; [|done].
  apply generate_quizzes_Some in Hgen as (kv & qs & _ & _ & _ & _ & Hq & Hlen).
  rewrite Hq in Hlen. lia.
Qed.

End Validation.

(** ** Claims about generation *)

(** C1: the claim wants every element that fails the check dropped on its
    own.  On an answer with five well-formed questions followed by [null]
    the membership test of line 61 raises on [null], the exception is caught
    at line 72 and the call returns [None], although the five well-formed
    elements would have been enough. *)
Theorem non_container_element_fails_batch :
  let v := sample_question (JInt 1) in
  let r := sample_response [v; v; v; v; v; JNull] in
  check_quiz JNull = Raise TypeError ∧
  valid_elements r = [v; v; v; v; v] ∧
  generate_body r 5 = Raise TypeError ∧
  generate_quizzes r 5 = None.
Proof. by vm_compute. Qed.

(** C2: when fewer than [count] elements of the answer pass the check,
    [generate_quizzes] returns [None].  The steps are taken in order and each
    returns [None] by itself: no ['questions'] key, a value that is no list,
    a list shorter than [count] (the elements are then not even looked at),
    and too few elements left by the loop. *)
Theorem generate_rejects_too_few_valid r count :
  Z.of_nat (length (valid_elements r)) < count →
  generate_quizzes r count = None ∧
  (∀ j, r = Parsed j →
     (questions_value r = None → generate_body r count = Ok None) ∧
     (∀ v, questions_value r = Some v → Py.is_list v = false →
        generate_body r count = Ok None) ∧
     (∀ qs, questions_value r = Some (JList qs) →
        Z.of_nat (length qs) < count → generate_body r count = Ok None) ∧
     (∀ qs valid, questions_value r = Some (JList qs) →
        count ≤ Z.of_nat (length qs) → validate_loop qs [] = Ok valid →
        generate_body r count = Ok None)).
Proof.
  intros Hfew. split; [by apply generate_quizzes_too_few|].
  intros j ->. unfold generate_body. simpl in *.
  destruct j as [| | | | | |kv]; simpl; try by repeat split.
  repeat split.
  - by intros ->.
  - intros v -> Hv. by destruct v.
  - intros qs -> Hlen.
    by destruct (Z.ltb_spec (Z.of_nat (length qs)) count); [|lia].
  - intros qs valid Hqs Hlen Hloop. rewrite Hqs.
    destruct (Z.ltb_spec (Z.of_nat (length qs)) count); [done|].
    rewrite Hloop. simpl.
    apply validate_loop_filter in Hloop. simpl in Hloop. subst valid.
    unfold valid_elements, elements in Hfew. simpl in Hfew. rewrite Hqs in Hfew.
    by destruct (Z.ltb_spec (Z.of_nat (length (filter (λ quiz, passes quiz) qs)))
                            count); [|lia].
Qed.

(** The scenario of the specification: five elements, the third with three
    options only, and five questions asked. *)
Lemma generate_rejects_too_few_valid_witness :
  let v := sample_question (JInt 1) in
  let short := JDict [("question", JStr "q");
                      ("options", JList [JStr "a"; JStr "b"; JStr "c"]);
                      ("correct_answer_index", JInt 0)] in
  let r := sample_response [v; v; short; v; v] in
  Z.of_nat (length (valid_elements r)) < 5 ∧ generate_quizzes r 5 = None.
Proof.
  intros v short r.
  assert (Z.of_nat (length (valid_elements r)) < 5) as Hfew by by vm_compute.
  split; [exact Hfew|].
  exact (proj1 (generate_rejects_too_few_valid r 5 Hfew)).
Defined.

(** C3: the claim wants all valid elements returned when there are more
    than [count] of them.  On an answer with six well-formed questions and
    the number 7 the check raises on 7 and the call returns [None]. *)
Theorem overproduction_with_non_container_fails :
  let v := sample_question (JInt 2) in
  let r := sample_response [v; v; v; JInt 7; v; v; v] in
  valid_elements r = [v; v; v; v; v; v] ∧
  5 < Z.of_nat (length (valid_elements r)) ∧
  generate_quizzes r 5 = None.
Proof. by vm_compute. Qed.

(** What does hold of over-production: when every element of the answer is
    a dict, every passing element is returned, however many there are. *)
Lemma generate_keeps_all_valid kv qs count :
  Py.dict_get kv "questions" = Some (JList qs) →
  Forall (λ quiz, ∃ entries, quiz = JDict entries) qs →
  count < Z.of_nat (length (valid_elements (Parsed (JDict kv)))) →
  ∃ q, generate_quizzes (Parsed (JDict kv)) count = Some q ∧
       questions q = valid_elements (Parsed (JDict kv)) ∧
       count < Z.of_nat (length (questions q)).
Proof.
  unfold valid_elements, elements. simpl. intros Hget Hdicts. rewrite Hget.
  intros Hcount. eexists.
  split; [apply generate_quizzes_accepts; [done| |lia]|done].
  eapply Forall_impl; [exact Hdicts|].
  intros quiz [entries ->]. eexists. apply check_quiz_dict.
Qed.

(** C8, as stated: no way for the caller to read the kind of failure off
    the returned value, since a service failure, a text that is no JSON and
    a JSON value without questions all return [None]. *)
Lemma failure_kinds_not_distinguished :
  ¬ ∃ kind_of : option quizset → failure_kind,
      kind_of (generate_quizzes ServiceRaises 5) = ServiceError ∧
      kind_of (generate_quizzes NotJson 5) = ParseError ∧
      kind_of (generate_quizzes (Parsed JNull) 5) = SchemaError.
Proof.
  intros (kind_of & Hservice & Hparse & _).
  change (generate_quizzes ServiceRaises 5) with (@None quizset) in Hservice.
  change (generate_quizzes NotJson 5) with (@None quizset) in Hparse.
  congruence.
Qed.

(** C8, amended: every failing call returns the one value [None], whether
    the service raised, the text was no JSON or the schema was violated; any
    two failing calls return the same value. *)
Theorem generate_failure_is_None count :
  generate_quizzes ServiceRaises count = None ∧
  generate_quizzes NotJson count = None ∧
  (∀ j, Z.of_nat (length (valid_elements (Parsed j))) < count →
        generate_quizzes (Parsed j) count = None) ∧
  (∀ r1 r2 count1 count2,
     (∀ q, generate_quizzes r1 count1 ≠ Some q) →
     (∀ q, generate_quizzes r2 count2 ≠ Some q) →
     generate_quizzes r1 count1 = generate_quizzes r2 count2).
Proof.
  repeat split; try done.
  - intros j Hfew. by apply generate_quizzes_too_few.
  - intros r1 r2 count1 count2 H1 H2.
    destruct (generate_quizzes r1 count1) as [q|]; [by destruct (H1 q)|].
    by destruct (generate_quizzes r2 count2) as [q|]; [destruct (H2 q)|].
Qed.

(** C9: the questions of a successful call are the passing elements of the
    answer in the order of the answer: they form a subsequence of the
    elements of the answer. *)
Theorem generate_preserves_order r count q :
  generate_quizzes r count = Some q →
  questions q = valid_elements r ∧
  questions q `sublist_of` elements r.
Proof.
  intros (kv & qs & -> & Hget & _ & _ & Hq & _)%generate_quizzes_Some.
  split; [done|]. rewrite Hq. apply sublist_filter.
Qed.

Lemma generate_preserves_order_witness :
  let a := sample_question (JInt 0) in
  let b := sample_question (JInt 4) in
  let c := sample_question (JInt 3) in
  questions (QuizSet [a; c]) = valid_elements (sample_response [a; b; c]) ∧
  questions (QuizSet [a; c]) `sublist_of` elements (sample_response [a; b; c]).
Proof.
  intros a b c.
  apply (generate_preserves_order (sample_response [a; b; c]) 2 (QuizSet [a; c])).
  reflexivity.
Defined.

(** * Properties of the session *)

Section Session.

Implicit Types (s : session) (q : quizset) (quiz : json) (z n : Z).

Lemma int_eq_as_int z c n : Py.as_int c = Some n → Py.int_eq z c = (z =? n).
Proof. destruct c; simpl; try done; by intros [= <-]. Qed.

Lemma index_in_range {A} (l : list A) (i : Z) :
  0 ≤ i < Z.of_nat (length l) →
  ∃ x, l !! Z.to_nat i = Some x ∧ Py.index l i = Ok x.
Proof.
  intros Hi. unfold Py.index.
  destruct (Z.ltb_spec i 0); [lia|].
  destruct (Z.ltb_spec i 0), (Z.leb_spec (Z.of_nat (length l)) i); try lia.
  simpl. destruct (lookup_lt_is_Some_2 l (Z.to_nat i)) as [x Hx]; [lia|].
  exists x. by rewrite Hx.
Qed.

Lemma index_out_of_range {A} (l : list A) (i : Z) :
  Z.of_nat (length l) ≤ i → Py.index l i = Raise IndexError.
Proof.
  intros Hi. unfold Py.index.
  destruct (Z.ltb_spec i 0); [lia|].
  destruct (Z.ltb_spec i 0), (Z.leb_spec (Z.of_nat (length l)) i); try lia.
  done.
Qed.

(** A question that passed the check has its text, its options and an int
    as correct index between 0 and 3. *)
Lemma passes_correct_index quiz :
  passes quiz = true →
  ∃ c n, Py.getitem quiz "correct_answer_index" = Ok c ∧
         Py.as_int c = Some n ∧ correct_index quiz = Some n ∧ 0 ≤ n < 4.
Proof.
  intros (kv & text & opts & c & n & -> & _ & _ & _ & Hc & Hn & Hr)%passes_inv.
  exists c, n. unfold correct_index. simpl. rewrite Hc.
  repeat split; try done; lia.
Qed.

Lemma passes_renders quiz :
  passes quiz = true →
  ∃ text opts, Py.getitem quiz "question" = Ok text ∧
               Py.getitem quiz "options" = Ok opts.
Proof.
  intros (kv & text & opts & c & n & -> & Ht & Ho & _)%passes_inv.
  exists text, (JList opts). simpl. by rewrite Ht, Ho.
Qed.

(** One answer on a session of the program: it returns, and the score grows
    exactly when the current question exists and the selection is its
    correct index. *)
Lemma submitAnswer_spec s z :
  session_inv s →
  ∃ hit : bool,
    submitAnswer z s = Ok (advance hit s) ∧
    (size s ≤ get_current s → hit = false) ∧
    (get_current s < size s →
       ∃ q quiz n, quizzes s = Some q ∧
         questions q !! Z.to_nat (get_current s) = Some quiz ∧
         correct_index quiz = Some n ∧ hit = (z =? n)).
Proof.
  intros (q & c & sc & Hq & Hall & Hc & Hsc & Ht & H0 & Hle & Hsz).
  unfold submitAnswer, get_questions, size, get_current. rewrite Hq, Hc. simpl.
  destruct (Z.ltb_spec c (Z.of_nat (length (questions q)))) as [Hlt|Hge]; simpl.
  - destruct (index_in_range (questions q) c) as (quiz & Hlook & Hidx); [lia|].
    rewrite Hidx. simpl.
    assert (passes quiz = true) as Hp.
    { rewrite Forall_lookup in Hall. apply Is_true_true, (Hall _ _ Hlook). }
    destruct (passes_correct_index _ Hp) as (v & n & Hget & Hn & Hci & _).
    rewrite Hget. simpl. rewrite (int_eq_as_int _ _ _ Hn).
    exists (z =? n). split; [|split; [lia|]].
    + unfold advance, get_current. rewrite Hc.
      destruct (z =? n); simpl; by rewrite ?Hq.
    + intros _. by exists q, quiz, n.
  - exists false. split; [|split; [done|lia]].
    unfold advance, get_current. by rewrite Hc, ?Hq.
Qed.

Lemma advance_inv hit s :
  session_inv s → (hit = true → get_current s < size s) →
  session_inv (advance hit s).
Proof.
  intros (q & c & sc & Hq & Hall & Hc & Hsc & Ht & H0 & Hle & Hsz).
  unfold size, get_current, get_score. rewrite Hq, Hc. simpl. intros Hhit.
  exists q, (c + 1), (if hit then sc + 1 else sc).
  unfold advance, get_current, get_score. rewrite Hc, Hsc. simpl.
  destruct hit; repeat split; try done; try lia.
  all: specialize (Hhit eq_refl); lia.
Qed.

Lemma new_session_inv r count q cat :
  generate_quizzes r count = Some q → session_inv (new_session q cat).
Proof.
  intros Hgen. exists q, 0, 0. simpl. repeat split; try done; try lia.
  apply generate_quizzes_Some in Hgen as (kv & qs & _ & _ & _ & _ & Hq & _).
  rewrite Hq. unfold valid_elements. apply Forall_forall.
  by intros quiz [Hp _]%list_elem_of_filter.
Qed.

(** Every reachable session satisfies the invariant. *)
Lemma reachable_inv s : reachable s → session_inv s.
Proof.
  induction 1 as [r count q cat Hgen|s z s' _ IH Hstep].
  - by eapply new_session_inv.
  - destruct (submitAnswer_spec s z IH) as (hit & Hs' & Hstale & _).
    rewrite Hs' in Hstep. injection Hstep as <-.
    apply advance_inv; [done|]. intros ->.
    destruct (Z.lt_ge_cases (get_current s) (size s)); [done|].
    by specialize (Hstale ltac:(done)).
Qed.

Lemma reachable_submit_all s selected s' :
  reachable s → submit_all selected s = Ok s' → reachable s'.
Proof.
  revert s. induction selected as [|z rest IH]; intros s Hs; simpl.
  - by intros [= <-].
  - destruct (submitAnswer z s) as [s1|] eqn:Hstep; [|done]. simpl.
    apply IH. by eapply reachable_submit.
Qed.

(** On a reachable session any sequence of answers returns. *)
Lemma submit_all_returns s selected :
  reachable s →
  ∃ s', submit_all selected s = Ok s' ∧
        quizzes s' = quizzes s ∧
        get_current s' = get_current s + Z.of_nat (length selected).
Proof.
  revert s. induction selected as [|z rest IH]; intros s Hs; simpl.
  - exists s. repeat split; lia.
  - destruct (submitAnswer_spec s z (reachable_inv _ Hs)) as (hit & Hstep & _).
    rewrite Hstep. simpl.
    destruct (IH (advance hit s)) as (s' & Hrun & Hq & Hcur).
    { eapply reachable_submit; [exact Hs|exact Hstep]. }
    exists s'. split; [done|]. rewrite Hq, Hcur.
    unfold advance, get_current. simpl. split; [done|lia].
Qed.

End Session.

(** ** Claims about the session *)

Lemma one_question_reachable : reachable one_question_session.
Proof.
  by apply (reachable_new (sample_response [sample_question (JInt 1)]) 1).
Qed.

(** The scenario of the specification: correct indices 1, 0, 2, 3, 1 and
    the answers 1, 0, 0, 3, 1 give a score of 4 out of 5; the session is
    complete after the fifth answer and not before. *)
Example five_questions_scenario :
  let qs := sample_question <$> [JInt 1; JInt 0; JInt 2; JInt 3; JInt 1] in
  generate_quizzes (sample_response qs) 5 = Some (QuizSet qs) ∧
  (∃ s, submit_all [1; 0; 0; 3; 1] (new_session (QuizSet qs) "c") = Ok s ∧
        result s = RenderResult 4 5 "c" ∧ isComplete s = true) ∧
  (∃ s, submit_all [1; 0; 0; 3] (new_session (QuizSet qs) "c") = Ok s ∧
        isComplete s = false).
Proof.
  split; [by vm_compute|].
  split; eexists; (split; [vm_compute; reflexivity|by vm_compute]).
Qed.

(** A successful [/start] leaves a reachable session, whatever the session
    was before. *)
Lemma start_reachable form_category r s s' :
  start form_category r s = (s', RedirectQuiz) → reachable s'.
Proof.
  unfold start. destruct (generate_quizzes r 5) as [q|] eqn:Hgen; [|done].
  intros [= <-]. by eapply reachable_new.
Qed.

Section SessionClaims.

Implicit Types (s : session) (q : quizset) (z : Z) (selected : list Z).

Lemma isComplete_iff s :
  session_inv s → isComplete s = true ↔ size s ≤ get_current s.
Proof.
  intros (q & c & sc & Hq & Hall & Hc & Hsc & Ht & H0 & Hle & Hsz).
  unfold isComplete, quiz, size, get_current. rewrite Hq, Hc. simpl.
  destruct (Nat.eqb_spec (length (questions q)) 0) as [Hnil|_].
  { rewrite Hnil. split; [lia|done]. }
  destruct (Z.leb_spec (Z.of_nat (length (questions q))) c) as [|Hlt]; [done|].
  destruct (index_in_range (questions q) c) as (quiz & Hlook & ->); [lia|]. simpl.
  assert (passes quiz = true) as Hp.
  { rewrite Forall_lookup in Hall. apply Is_true_true, (Hall _ _ Hlook). }
  destruct (passes_renders _ Hp) as (text & opts & -> & ->). simpl.
  split; [done|lia].
Qed.

(** C4, as stated: the current index does not stay below the size.  After
    two answers to a quiz of one question it is 2. *)
Lemma score_bound_fails_after_completion :
  ¬ ∀ s, reachable s → score_bound s.
Proof.
  intros Hbound.
  destruct (Hbound (advance false (advance true one_question_session)))
    as (_ & _ & Hcur); [|vm_compute in Hcur; done].
  apply (reachable_submit_all one_question_session [1; 0]);
    [apply one_question_reachable|done].
Qed.

(** C4, amended: after any sequence of answers to the session of an accepted
    quiz set, the score is between 0 and the current index and at most the
    size; the current index is the number of answers given, so that it is
    at most the size as long as no more answers than questions were given. *)
Theorem score_bounded r count q cat selected :
  generate_quizzes r count = Some q →
  ∃ s, submit_all selected (new_session q cat) = Ok s ∧
       0 ≤ get_score s ∧ get_score s ≤ get_current s ∧ get_score s ≤ size s ∧
       get_current s = Z.of_nat (length selected) ∧
       size s = Z.of_nat (length (questions q)).
Proof.
  intros Hgen.
  assert (reachable (new_session q cat)) as Hnew by by eapply reachable_new.
  destruct (submit_all_returns _ selected Hnew) as (s & Hrun & Hq & Hcur).
  exists s. split; [done|].
  destruct (reachable_inv s) as (q' & c & sc & Hq' & _ & Hc & Hsc & _ & ? & ? & ?).
  { by eapply reachable_submit_all. }
  unfold get_score, get_current, size in *. rewrite Hq' in *.
  rewrite Hc, Hsc in *. simpl in *. simplify_eq. repeat split; try done; lia.
Qed.

Lemma score_bounded_witness :
  ∃ s, submit_all [1; 1; 3] one_question_session = Ok s ∧
       0 ≤ get_score s ∧ get_score s ≤ get_current s ∧ get_score s ≤ size s ∧
       get_current s = 3 ∧ size s = 1.
Proof.
  apply (score_bounded (sample_response [sample_question (JInt 1)]) 1
                       one_question "c" [1; 1; 3]).
  reflexivity.
Defined.

(** C5: on a reachable session every answer returns and moves the current
    index forward by one, whatever option was selected; after a sequence of
    answers the current index has grown by their number. *)
Theorem submitAnswer_advances_by_one s z :
  reachable s →
  (∃ s', submitAnswer z s = Ok s' ∧ get_current s' = get_current s + 1) ∧
  (∀ selected, ∃ s', submit_all selected s = Ok s' ∧
     get_current s' = get_current s + Z.of_nat (length selected)).
Proof.
  intros Hs. split.
  - destruct (submitAnswer_spec s z (reachable_inv _ Hs)) as (hit & -> & _).
    by eexists.
  - intros selected.
    destruct (submit_all_returns s selected Hs) as (s' & ? & _ & ?).
    by exists s'.
Qed.

Lemma submitAnswer_advances_by_one_witness :
  (∃ s', submitAnswer 2 one_question_session = Ok s' ∧
         get_current s' = get_current one_question_session + 1) ∧
  (∀ selected, ∃ s', submit_all selected one_question_session = Ok s' ∧
     get_current s' = get_current one_question_session
                      + Z.of_nat (length selected)).
Proof.
  apply (submitAnswer_advances_by_one one_question_session 2).
  apply one_question_reachable.
Defined.

(** C6: a reachable session is complete exactly when its current index has
    reached the size, and a complete session stays complete after any
    sequence of answers; [quiz] and [result] leave the session as it is. *)
Theorem isComplete_stable s :
  reachable s →
  (isComplete s = true ↔ size s ≤ get_current s) ∧
  (isComplete s = true →
   ∀ selected, ∃ s', submit_all selected s = Ok s' ∧ isComplete s' = true).
Proof.
  intros Hs. split; [by apply isComplete_iff, reachable_inv|].
  intros Hdone%(isComplete_iff _ (reachable_inv _ Hs)) selected.
  destruct (submit_all_returns s selected Hs) as (s' & Hrun & Hq & Hcur).
  exists s'. split; [done|].
  apply isComplete_iff; [by eapply reachable_inv, reachable_submit_all|].
  unfold size in *. rewrite Hq. lia.
Qed.

Lemma isComplete_stable_witness :
  let s := advance true one_question_session in
  (isComplete s = true ↔ size s ≤ get_current s) ∧
  (isComplete s = true →
   ∀ selected, ∃ s', submit_all selected s = Ok s' ∧ isComplete s' = true).
Proof.
  apply (isComplete_stable (advance true one_question_session)).
  apply (reachable_submit one_question_session 1); [|reflexivity].
  apply one_question_reachable.
Defined.

(** C7: on a reachable session whose current index has reached the size, an
    answer returns and leaves the score as it is, although indexing the
    questions at the current index would raise; and on every reachable
    session [quiz] returns and every answer returns. *)
Theorem stale_submission_is_safe s z :
  reachable s →
  (∃ rep, quiz s = Ok rep) ∧
  (∃ s', submitAnswer z s = Ok s' ∧
     (size s ≤ get_current s →
        get_score s' = get_score s ∧
        ∃ qs, get_questions s = Ok qs ∧
              Py.index qs (get_current s) = Raise IndexError)).
Proof.
  intros Hs. pose proof (reachable_inv _ Hs) as Hinv. split.
  - destruct Hinv as (q & c & sc & Hq & Hall & Hc & Hsc & Ht & H0 & Hle & Hsz).
    unfold quiz, get_current. rewrite Hq, Hc. simpl.
    destruct (length (questions q) =? 0)%nat; [by eexists|].
    destruct (Z.leb_spec (Z.of_nat (length (questions q))) c); [by eexists|].
    destruct (index_in_range (questions q) c) as (quiz & Hlook & ->); [lia|].
    assert (passes quiz = true) as Hp.
    { rewrite Forall_lookup in Hall. apply Is_true_true, (Hall _ _ Hlook). }
    destruct (passes_renders _ Hp) as (text & opts & Htext & Hopts).
    simpl. rewrite Htext, Hopts. by eexists.
  - destruct (submitAnswer_spec s z Hinv) as (hit & Hstep & Hstale & _).
    exists (advance hit s). split; [done|]. intros Hge.
    rewrite (Hstale Hge). split; [done|].
    destruct Hinv as (q & _ & _ & Hq & _).
    exists (questions q). unfold get_questions, size in *. rewrite Hq in *.
    split; [done|]. by apply index_out_of_range.
Qed.

Lemma stale_submission_is_safe_witness :
  let s := advance true one_question_session in
  (∃ rep, quiz s = Ok rep) ∧
  (∃ s', submitAnswer 1 s = Ok s' ∧
     (size s ≤ get_current s →
        get_score s' = get_score s ∧
        ∃ qs, get_questions s = Ok qs ∧
              Py.index qs (get_current s) = Raise IndexError)).
Proof.
  apply (stale_submission_is_safe (advance true one_question_session) 1).
  apply (reachable_submit one_question_session 1); [|reflexivity].
  apply one_question_reachable.
Defined.

(** C10: an answer without the [option] field is the answer 0.  On a
    reachable session it returns and advances the current index by one, and
    while a current question exists the score grows by one exactly when the
    correct index of that question is 0 and is unchanged otherwise. *)
Theorem absent_option_is_zero s :
  reachable s →
  answer OptionAbsent s = submitAnswer 0 s ∧
  ∃ s', answer OptionAbsent s = Ok s' ∧
    get_current s' = get_current s + 1 ∧
    (get_current s < size s →
       ∃ q quiz n, quizzes s = Some q ∧
         questions q !! Z.to_nat (get_current s) = Some quiz ∧
         correct_index quiz = Some n ∧
         get_score s' = get_score s + (if n =? 0 then 1 else 0)).
Proof.
  intros Hs. split; [done|]. unfold answer. simpl.
  destruct (submitAnswer_spec s 0 (reachable_inv _ Hs)) as (hit & -> & _ & Hcur).
  exists (advance hit s). repeat split.
  intros (q & quiz & n & Hq & Hlook & Hn & ->)%Hcur.
  exists q, quiz, n. repeat split; try done.
  rewrite (Z.eqb_sym 0 n). unfold advance, get_score. simpl.
  destruct (n =? 0); simpl; [done|lia].
Qed.

Lemma absent_option_is_zero_witness :
  let s := new_session (QuizSet [sample_question (JInt 0)]) "c" in
  answer OptionAbsent s = submitAnswer 0 s ∧
  ∃ s', answer OptionAbsent s = Ok s' ∧
    get_current s' = get_current s + 1 ∧
    (get_current s < size s →
       ∃ q quiz n, quizzes s = Some q ∧
         questions q !! Z.to_nat (get_current s) = Some quiz ∧
         correct_index quiz = Some n ∧
         get_score s' = get_score s + (if n =? 0 then 1 else 0)).
Proof.
  apply (absent_option_is_zero
           (new_session (QuizSet [sample_question (JInt 0)]) "c")).
  by apply (reachable_new (sample_response [sample_question (JInt 0)]) 1).
Defined.

End SessionClaims.

(** * Further properties of the generation pipeline *)

Section MoreValidation.

Implicit Types (quiz : json) (qs : list json) (count : Z) (q : quizset).

Lemma passes_well_formed quiz : passes quiz = true ↔ well_formed quiz.
Proof.
  split; [apply passes_inv|].
  intros (kv & text & opts & c & n & -> & ? & ? & ? & ? & ? & ?).
  by eapply passes_intro.
Qed.

Lemma validate_loop_Ok_inv qs acc valid :
  validate_loop qs acc = Ok valid →
  Forall (λ quiz, ∃ b, check_quiz quiz = Ok b) qs.
Proof.
  revert acc. induction qs as [|quiz rest IH]; intros acc; simpl; [done|].
  destruct (check_quiz quiz) as [b|] eqn:Hcheck; simpl; [|done].
  intros Hloop. constructor; [by exists b|by eapply IH].
Qed.

Lemma filter_passes_all qs :
  Forall (λ quiz, passes quiz) qs → filter (λ quiz, passes quiz) qs = qs.
Proof.
  induction 1 as [|quiz rest Hp _ IH]; [done|].
  rewrite filter_passes_cons, IH. by apply Is_true_true in Hp as ->.
Qed.

Lemma generate_quizzes_all_pass r count q :
  generate_quizzes r count = Some q →
  Forall (λ quiz, passes quiz) (questions q).
Proof.
  intros (kv & qs & _ & _ & _ & _ & Hq & _)%generate_quizzes_Some.
  rewrite Hq. unfold valid_elements. apply Forall_forall.
  by intros quiz [Hp _]%list_elem_of_filter.
Qed.

(** What a successful call says of the answer, with the elements named. *)
Lemma generate_quizzes_Some_elements r count q :
  generate_quizzes r count = Some q →
  ∃ kv qs,
    r = Parsed (JDict kv) ∧
    Py.dict_get kv "questions" = Some (JList qs) ∧
    Forall (λ quiz, ∃ b, check_quiz quiz = Ok b) qs ∧
    count ≤ Z.of_nat (length (filter (λ quiz, passes quiz) qs)) ∧
    questions q = filter (λ quiz, passes quiz) qs.
Proof.
  intros (kv & qs & -> & Hget & _ & Hloop & Hq & Hlen)%generate_quizzes_Some.
  exists kv, qs. unfold valid_elements, elements in Hq. simpl in Hq.
  rewrite Hget in Hq. rewrite Hq in Hlen.
  repeat split; try done. by eapply validate_loop_Ok_inv.
Qed.

(** X1: the check of lines 61-63 returns [True] exactly on the well-formed
    questions, and on a dict it never raises: a dict that is not well formed
    is answered with [False]. *)
Theorem check_quiz_true_iff quiz :
  (check_quiz quiz = Ok true ↔ well_formed quiz) ∧
  (∀ kv, quiz = JDict kv → ¬ well_formed quiz → check_quiz quiz = Ok false).
Proof.
  split.
  - rewrite <- passes_well_formed. unfold passes.
    by destruct (check_quiz quiz) as [[]|].
  - intros kv -> Hnot. rewrite check_quiz_dict.
    destruct (passes (JDict kv)) eqn:Hp; [|done].
    by apply passes_well_formed in Hp.
Qed.

(** X2: a call succeeds exactly when the answer is a dict whose
    ['questions'] is a list, the check returns on every element of it and at
    least [count] elements pass; the result then holds the passing elements
    and nothing else. *)
Theorem generate_quizzes_succeeds_iff r count q :
  generate_quizzes r count = Some q ↔
  ∃ kv qs,
    r = Parsed (JDict kv) ∧
    Py.dict_get kv "questions" = Some (JList qs) ∧
    Forall (λ quiz, ∃ b, check_quiz quiz = Ok b) qs ∧
    count ≤ Z.of_nat (length (filter (λ quiz, passes quiz) qs)) ∧
    q = QuizSet (filter (λ quiz, passes quiz) qs).
Proof.
  split.
  - intros (kv & qs & -> & ? & ? & ? & Hq)%generate_quizzes_Some_elements.
    exists kv, qs. repeat split; try done.
    destruct q as [l]. simpl in Hq. by rewrite Hq.
  - intros (kv & qs & -> & Hget & Hall & Hlen & ->).
    by apply generate_quizzes_accepts.
Qed.

(** X3: an element that is [null], a boolean or a number anywhere in the
    list makes the call return [None], whatever the other elements are. *)
Theorem non_container_element_gives_None kv qs quiz count :
  Py.dict_get kv "questions" = Some (JList qs) →
  quiz ∈ qs →
  not_container quiz →
  generate_quizzes (Parsed (JDict kv)) count = None.
Proof.
  intros Hget Hin Hnot.
  unfold generate_quizzes, generate_body. rewrite Hget.
  destruct (Z.of_nat (length qs) <? count); [done|].
  destruct (validate_loop_raises qs [] quiz TypeError Hin) as [e ->]; [|done].
  by destruct quiz.
Qed.

Lemma non_container_element_gives_None_witness :
  generate_quizzes
    (Parsed (JDict [("questions",
                     JList [sample_question (JInt 0); JBool true])])) 1
  = None.
Proof.
  apply (non_container_element_gives_None _
           [sample_question (JInt 0); JBool true] (JBool true)).
  - reflexivity.
  - apply list_elem_of_In. simpl. tauto.
  - exact I.
Defined.

(** X4: every question of a returned quiz set is well formed, and the quiz
    set has at least [count] questions and no more than the answer had
    elements. *)
Theorem generate_quizzes_well_formed r count q :
  generate_quizzes r count = Some q →
  Forall well_formed (questions q) ∧
  count ≤ Z.of_nat (length (questions q)) ∧
  (length (questions q) ≤ length (elements r))%nat.
Proof.
  intros Hgen. pose proof (generate_quizzes_all_pass _ _ _ Hgen) as Hall.
  apply generate_quizzes_Some in Hgen as (kv & qs & -> & _ & _ & _ & Hq & Hlen).
  repeat split; [|done|].
  - eapply Forall_impl; [exact Hall|].
    intros quiz Hp. by apply passes_well_formed, Is_true_true.
  - rewrite Hq. apply length_filter.
Qed.

Lemma generate_quizzes_well_formed_witness :
  Forall well_formed (questions one_question) ∧
  1 ≤ Z.of_nat (length (questions one_question)) ∧
  (length (questions one_question)
   ≤ length (elements (sample_response [JStr "x"; sample_question (JInt 1)])))%nat.
Proof.
  apply (generate_quizzes_well_formed
           (sample_response [JStr "x"; sample_question (JInt 1)]) 1).
  reflexivity.
Defined.

(** X5: the count is only a lower bound: an answer accepted for [count]
    questions is accepted with the same result for any smaller count. *)
Theorem generate_quizzes_smaller_count r count count' q :
  generate_quizzes r count = Some q →
  count' ≤ count →
  generate_quizzes r count' = Some q.
Proof.
  intros (kv & qs & -> & Hget & Hall & Hlen & Hq)%generate_quizzes_Some_elements.
  intros Hle. destruct q as [l]. simpl in Hq. subst l.
  apply generate_quizzes_accepts; [done..|lia].
Qed.

Lemma generate_quizzes_smaller_count_witness :
  generate_quizzes (sample_response [sample_question (JInt 1)]) 0
  = Some one_question.
Proof.
  apply (generate_quizzes_smaller_count _ 1 0).
  - reflexivity.
  - lia.
Defined.

(** X6: a returned quiz set stands the validation again: given back as the
    ['questions'] of an answer, it is returned as it is. *)
Theorem generate_quizzes_idempotent r count q :
  generate_quizzes r count = Some q →
  generate_quizzes (Parsed (JDict [("questions", JList (questions q))])) count
  = Some q.
Proof.
  intros Hgen. pose proof (generate_quizzes_all_pass _ _ _ Hgen) as Hall.
  apply generate_quizzes_Some in Hgen as (_ & _ & _ & _ & _ & _ & _ & Hlen).
  destruct q as [l]. simpl in *.
  rewrite <- (filter_passes_all _ Hall) at 2.
  apply generate_quizzes_accepts; [done| |by rewrite filter_passes_all].
  eapply Forall_impl; [exact Hall|].
  intros quiz Hp%Is_true_true. exists true. unfold passes in Hp.
  by destruct (check_quiz quiz) as [[]|].
Qed.

Lemma generate_quizzes_idempotent_witness :
  generate_quizzes
    (Parsed (JDict [("questions", JList (questions one_question))])) 1
  = Some one_question.
Proof.
  apply (generate_quizzes_idempotent
           (sample_response [JStr "x"; sample_question (JInt 1)]) 1).
  reflexivity.
Defined.

End MoreValidation.

Section ElementKinds.

Implicit Types (s : string) (l : list json) (b : bool).

(** X7: a string or a list among the elements never passes the check.  It is
    answered with [False], and so dropped, unless it contains all three key
    names (as substrings of the string, as elements of the list); then the
    lookup of line 62 raises [TypeError]. *)
Theorem check_quiz_string_or_list :
  (∀ s, check_quiz (JStr s) =
        if Py.is_substring "question" s && Py.is_substring "options" s
           && Py.is_substring "correct_answer_index" s
        then Raise TypeError else Ok false) ∧
  (∀ l, check_quiz (JList l) =
        if existsb (Py.str_eq "question") l && existsb (Py.str_eq "options") l
           && existsb (Py.str_eq "correct_answer_index") l
        then Raise TypeError else Ok false).
Proof.
  split.
  - intros s. unfold check_quiz. simpl.
    by destruct (Py.is_substring "question" s),
      (Py.is_substring "options" s),
      (Py.is_substring "correct_answer_index" s).
  - intros l. unfold check_quiz. simpl.
    by destruct (existsb (Py.str_eq "question") l),
      (existsb (Py.str_eq "options") l),
      (existsb (Py.str_eq "correct_answer_index") l).
Qed.

(** X8: a boolean as correct index is taken for an int: the question passes
    the check, [true] standing for the second option and [false] for the
    first. *)
Theorem boolean_index_is_accepted kv text opts b :
  Py.dict_get kv "question" = Some text →
  Py.dict_get kv "options" = Some (JList opts) →
  length opts = 4%nat →
  Py.dict_get kv "correct_answer_index" = Some (JBool b) →
  check_quiz (JDict kv) = Ok true ∧
  correct_index (JDict kv) = Some (if b then 1 else 0) ∧
  ∀ z, answered_right z (JDict kv) = (z =? (if b then 1 else 0)).
Proof.
  intros Htext Hopts Hlen Hidx.
  assert (passes (JDict kv) = true) as Hp.
  { eapply passes_intro; try done; by destruct b. }
  rewrite check_quiz_dict, Hp.
  unfold answered_right, correct_index. simpl. by rewrite Hidx.
Qed.

Lemma boolean_index_is_accepted_witness :
  check_quiz (sample_question (JBool true)) = Ok true ∧
  correct_index (sample_question (JBool true)) = Some 1 ∧
  ∀ z, answered_right z (sample_question (JBool true)) = (z =? 1).
Proof.
  apply (boolean_index_is_accepted _ (JStr "q")
           [JStr "a"; JStr "b"; JStr "c"; JStr "d"] true); reflexivity.
Defined.

End ElementKinds.

(** * Further properties of the session *)

Section MoreSession.

Implicit Types (s : session) (q : quizset) (z : Z) (selected : list Z).

Lemma hits_nil_r selected : hits selected [] = 0.
Proof. by destruct selected. Qed.

Lemma hits_bounds selected qs :
  0 ≤ hits selected qs ≤ Z.of_nat (length qs).
Proof.
  revert qs. induction selected as [|z rest IH]; intros [|quiz qs]; simpl; try lia.
  specialize (IH qs). destruct (answered_right z quiz); lia.
Qed.

Lemma reachable_category s : reachable s → ∃ cat, category s = Some cat.
Proof.
  induction 1 as [r count q cat Hgen|s z s' Hs [cat IH] Hstep]; [by eexists|].
  destruct (submitAnswer_spec s z (reachable_inv _ Hs)) as (hit & Hs' & _).
  rewrite Hs' in Hstep. injection Hstep as <-. by exists cat.
Qed.

(** The score after a sequence of answers on a reachable session: the hits
    on the questions from the current one on are added. *)
Lemma submit_all_score s q selected :
  reachable s → quizzes s = Some q →
  ∃ s', submit_all selected s = Ok s' ∧
        get_score s' = get_score s
                       + hits selected (drop (Z.to_nat (get_current s)) (questions q)).
Proof.
  revert s. induction selected as [|z rest IH]; intros s Hs Hq; simpl.
  { exists s. split; [done|lia]. }
  pose proof (reachable_inv _ Hs) as Hinv.
  destruct (submitAnswer_spec s z Hinv) as (hit & Hstep & Hstale & Hlive).
  rewrite Hstep. simpl.
  destruct (IH (advance hit s)) as (s' & Hrun & Hscore); [|done|].
  { eapply reachable_submit; [exact Hs|exact Hstep]. }
  exists s'. split; [done|]. rewrite Hscore.
  destruct Hinv as (q' & c & sc & Hq' & _ & Hc & Hsc & _ & ? & ? & _).
  assert (q' = q) as -> by congruence.
  unfold size in *. rewrite Hq in *.
  unfold advance, get_current, get_score in *. rewrite Hc, Hsc in *. simpl in *.
  replace (Z.to_nat (c + 1)) with (S (Z.to_nat c)) by lia.
  destruct (Z.lt_ge_cases c (Z.of_nat (length (questions q)))) as [Hlt|Hge].
  - destruct (Hlive Hlt) as (q' & quiz & n & [= <-] & Hlook & Hn & ->).
    rewrite (drop_S _ _ _ Hlook). simpl.
    unfold answered_right. rewrite Hn. destruct (z =? n); simpl; lia.
  - rewrite (Hstale Hge), !drop_ge, !hits_nil_r by lia. simpl. lia.
Qed.

(** X9: [/start] either leaves the session as it was and sends the browser
    to the start page, when the generation failed, or replaces it by a
    session at question 0 with score 0, at least five well-formed questions,
    their number as total and the category of the form. *)
Theorem start_outcome form_category r s :
  (generate_quizzes r 5 = None ∧ start form_category r s = (s, RedirectIndex)) ∨
  (∃ s', start form_category r s = (s', RedirectQuiz) ∧
     reachable s' ∧
     get_current s' = 0 ∧ get_score s' = 0 ∧
     get_total s' = size s' ∧ 5 ≤ size s' ∧
     category s' = Some (default default_category form_category) ∧
     (∃ q, quizzes s' = Some q ∧ Forall well_formed (questions q)) ∧
     ∀ s0, start form_category r s0 = (s', RedirectQuiz)).
Proof.
  unfold start. destruct (generate_quizzes r 5) as [q|] eqn:Hgen; [right|by left].
  eexists. split; [done|].
  pose proof (generate_quizzes_all_pass _ _ _ Hgen) as Hall.
  pose proof Hgen as (_ & _ & _ & _ & _ & _ & _ & Hlen)%generate_quizzes_Some.
  repeat split; try done; [by eapply reachable_new|].
  exists q. split; [done|]. eapply Forall_impl; [exact Hall|].
  intros quiz Hp. by apply passes_well_formed, Is_true_true.
Qed.

(** X10: on a reachable session the result page shows a score between 0 and
    the total, and the total is the number of questions of the quiz set. *)
Theorem result_score_within_total s :
  reachable s →
  ∃ sc cat, result s = RenderResult sc (size s) cat ∧
            0 ≤ sc ≤ size s ∧ category s = Some cat.
Proof.
  intros Hs. destruct (reachable_category s Hs) as [cat Hcat].
  destruct (reachable_inv s Hs) as (q & c & sc & Hq & _ & _ & Hsc & Ht & ? & ? & ?).
  exists sc, cat. unfold result, get_score, get_total, size.
  rewrite Hq, Hsc, Ht, Hcat. simpl. repeat split; try done; lia.
Qed.

Lemma result_score_within_total_witness :
  ∃ sc cat, result one_question_session
            = RenderResult sc (size one_question_session) cat ∧
            0 ≤ sc ≤ size one_question_session ∧
            category one_question_session = Some cat.
Proof.
  apply (result_score_within_total one_question_session).
  apply one_question_reachable.
Defined.

(** X11: while questions are left, [/quiz] on a reachable session shows the
    question at the current index with its text and its four options,
    numbered from 1 and never beyond the total. *)
Theorem quiz_renders_current_question s :
  reachable s →
  get_current s < size s →
  ∃ q quiz_data text opts,
    quizzes s = Some q ∧
    questions q !! Z.to_nat (get_current s) = Some quiz_data ∧
    Py.getitem quiz_data "question" = Ok text ∧
    Py.getitem quiz_data "options" = Ok (JList opts) ∧
    length opts = 4%nat ∧
    quiz s = Ok (RenderQuiz text (JList opts) (get_current s + 1) (size s)) ∧
    1 ≤ get_current s + 1 ≤ size s.
Proof.
  intros Hs Hlt.
  destruct (reachable_inv s Hs) as (q & c & sc & Hq & Hall & Hc & Hsc & _ & ? & ? & ?).
  unfold quiz, size, get_current in *. rewrite Hq, Hc in *. simpl in *.
  destruct (index_in_range (questions q) c) as (quiz_data & Hlook & Hidx); [lia|].
  assert (passes quiz_data = true) as Hp.
  { rewrite Forall_lookup in Hall. apply Is_true_true, (Hall _ _ Hlook). }
  apply passes_inv in Hp as (kv & text & opts & ci & n & -> & Ht & Ho & Hlen & _).
  exists q, (JDict kv), text, opts. simpl. rewrite Ht, Ho.
  repeat split; try done; try lia.
  destruct (Nat.eqb_spec (length (questions q)) 0); [lia|].
  destruct (Z.leb_spec (Z.of_nat (length (questions q))) c); [lia|].
  rewrite Hidx. simpl. by rewrite Ht, Ho.
Qed.

Lemma quiz_renders_current_question_witness :
  ∃ q quiz_data text opts,
    quizzes one_question_session = Some q ∧
    questions q !! Z.to_nat (get_current one_question_session) = Some quiz_data ∧
    Py.getitem quiz_data "question" = Ok text ∧
    Py.getitem quiz_data "options" = Ok (JList opts) ∧
    length opts = 4%nat ∧
    quiz one_question_session
    = Ok (RenderQuiz text (JList opts) (get_current one_question_session + 1)
                     (size one_question_session)) ∧
    1 ≤ get_current one_question_session + 1 ≤ size one_question_session.
Proof.
  apply (quiz_renders_current_question one_question_session).
  - apply one_question_reachable.
  - vm_compute. reflexivity.
Defined.

(** X12: the score after a sequence of answers to the session of an
    accepted quiz set is the number of selections that equal the correct
    index of their question; it is at most the number of questions. *)
Theorem score_counts_right_answers r count q cat selected :
  generate_quizzes r count = Some q →
  ∃ s, submit_all selected (new_session q cat) = Ok s ∧
       get_score s = hits selected (questions q) ∧
       0 ≤ get_score s ≤ Z.of_nat (length (questions q)).
Proof.
  intros Hgen.
  destruct (submit_all_score (new_session q cat) q selected)
    as (s & Hrun & Hscore); [by eapply reachable_new|done|].
  exists s. split; [done|]. rewrite Hscore. simpl.
  split; [done|apply hits_bounds].
Qed.

Lemma score_counts_right_answers_witness :
  ∃ s, submit_all [0; 1] (new_session one_question "c") = Ok s ∧
       get_score s = hits [0; 1] (questions one_question) ∧
       0 ≤ get_score s ≤ Z.of_nat (length (questions one_question)).
Proof.
  apply (score_counts_right_answers
           (sample_response [sample_question (JInt 1)]) 1).
  reflexivity.
Defined.

(** X13: once the current index of a reachable session has reached the
    size, no sequence of further answers changes the score. *)
Theorem score_frozen_after_completion s selected :
  reachable s →
  size s ≤ get_current s →
  ∃ s', submit_all selected s = Ok s' ∧ get_score s' = get_score s.
Proof.
  intros Hs Hdone.
  destruct (reachable_inv s Hs) as (q & _ & _ & Hq & _).
  destruct (submit_all_score s q selected Hs Hq) as (s' & Hrun & Hscore).
  exists s'. split; [done|]. rewrite Hscore.
  unfold size in Hdone. rewrite Hq in Hdone.
  rewrite drop_ge, hits_nil_r by lia. lia.
Qed.

Lemma score_frozen_after_completion_witness :
  ∃ s', submit_all [1; 1; 1] (advance true one_question_session) = Ok s' ∧
        get_score s' = get_score (advance true one_question_session).
Proof.
  apply (score_frozen_after_completion (advance true one_question_session)).
  - apply (reachable_submit one_question_session 1); [|reflexivity].
    apply one_question_reachable.
  - vm_compute. discriminate.
Defined.

(** X14: on a session without quiz set, as before any [/start], [/quiz]
    sends the browser to the result page, the result page shows what the
    session holds with 0 for a missing counter, and an answer raises:
    [KeyError] for an int selection, [ValueError] before that for a text
    that is no int. *)
Theorem session_without_quizzes s :
  quizzes s = None →
  quiz s = Ok RedirectResult ∧
  isComplete s = true ∧
  (∀ z, submitAnswer z s = Raise KeyError) ∧
  answer OptionAbsent s = Raise KeyError ∧
  answer OptionNotInt s = Raise ValueError ∧
  result s = RenderResult (default 0 (score s)) (default 0 (total_questions s))
                          (default default_category (category s)).
Proof.
  intros Hq. unfold isComplete, quiz, answer, submitAnswer, get_questions.
  by rewrite Hq.
Qed.

Lemma session_without_quizzes_witness :
  quiz empty_session = Ok RedirectResult ∧
  isComplete empty_session = true ∧
  (∀ z, submitAnswer z empty_session = Raise KeyError) ∧
  answer OptionAbsent empty_session = Raise KeyError ∧
  answer OptionNotInt empty_session = Raise ValueError ∧
  result empty_session = RenderResult 0 0 default_category.
Proof.
  apply (session_without_quizzes empty_session). reflexivity.
Defined.

(** X15: the session of an accepted quiz set is complete after a sequence
    of answers exactly when at least as many answers were given as there are
    questions. *)
Theorem complete_after_all_questions r count q cat selected :
  generate_quizzes r count = Some q →
  ∃ s, submit_all selected (new_session q cat) = Ok s ∧
       (isComplete s = true ↔ (length (questions q) ≤ length selected)%nat).
Proof.
  intros Hgen.
  assert (reachable (new_session q cat)) as Hnew by by eapply reachable_new.
  destruct (submit_all_returns _ selected Hnew) as (s & Hrun & Hq & Hcur).
  exists s. split; [done|].
  rewrite isComplete_iff by by eapply reachable_inv, reachable_submit_all.
  unfold size. rewrite Hq, Hcur. unfold get_current. simpl. lia.
Qed.

Lemma complete_after_all_questions_witness :
  ∃ s, submit_all [3] (new_session one_question "c") = Ok s ∧
       (isComplete s = true ↔ (length (questions one_question) ≤ length [3])%nat).
Proof.
  apply (complete_after_all_questions
           (sample_response [sample_question (JInt 1)]) 1).
  reflexivity.
Defined.

End MoreSession.

(** * The routes together *)

Section Routes.

Implicit Types (s : session) (req : request) (reqs : list request).

Lemma quiz_returns s : session_inv s → ∃ rep, quiz s = Ok rep.
Proof.
  intros (q & c & sc & Hq & Hall & Hc & _ & _ & ? & ? & _).
  unfold quiz, get_current. rewrite Hq, Hc. simpl.
  destruct (length (questions q) =? 0)%nat; [by eexists|].
  destruct (Z.leb_spec (Z.of_nat (length (questions q))) c); [by eexists|].
  destruct (index_in_range (questions q) c) as (quiz_data & Hlook & ->); [lia|].
  assert (passes quiz_data = true) as Hp.
  { rewrite Forall_lookup in Hall. apply Is_true_true, (Hall _ _ Hlook). }
  destruct (passes_renders _ Hp) as (text & opts & Htext & Hopts).
  simpl. rewrite Htext, Hopts. by eexists.
Qed.

Lemma handle_reachable req s :
  reachable s → int_request req →
  ∃ s' p, handle req s = Ok (s', p) ∧ reachable s'.
Proof.
  intros Hs Hint. destruct req as [|form_category r| |f|]; simpl.
  - by exists s, IndexPage.
  - destruct (start form_category r s) as [s' rep] eqn:Hstart.
    exists s', (Page rep). split; [done|].
    unfold start in Hstart.
    destruct (generate_quizzes r 5) as [q|] eqn:Hgen; simplify_eq; [|done].
    by eapply reachable_new.
  - destruct (quiz_returns s (reachable_inv _ Hs)) as [rep ->].
    by exists s, (Page rep).
  - unfold answer.
    assert (∃ z, selected_option f = Ok z) as [z ->].
    { destruct f; [by eexists..|by destruct Hint]. }
    simpl.
    destruct (submitAnswer_spec s z (reachable_inv _ Hs)) as (hit & Hstep & _).
    rewrite Hstep. simpl. exists (advance hit s), (Page RedirectQuiz).
    split; [done|]. by eapply reachable_submit.
  - by exists s, (Page (result s)).
Qed.

(** X16: once a session went through a successful [/start], no sequence of
    requests raises, as long as every answer carries an int or no option at
    all: each request gets its page, restarts included, and the session
    stays a reachable one. *)
Theorem serve_never_raises s reqs :
  reachable s →
  Forall int_request reqs →
  ∃ s' pages, serve reqs s = Ok (s', pages) ∧
              reachable s' ∧ length pages = length reqs.
Proof.
  intros Hs Hall. revert s Hs.
  induction Hall as [|req rest Hint _ IH]; intros s Hs; simpl.
  - by exists s, [].
  - destruct (handle_reachable req s Hs Hint) as (s1 & p & -> & Hs1). simpl.
    destruct (IH s1 Hs1) as (s2 & pages & -> & Hs2 & Hlen). simpl.
    exists s2, (p :: pages). simpl. by rewrite Hlen.
Qed.

Lemma serve_never_raises_witness :
  ∃ s' pages,
    serve [GetQuiz; PostAnswer OptionAbsent; GetQuiz; PostAnswer (OptionInt 7);
           GetResult; PostStart None NotJson; GetIndex]
          one_question_session = Ok (s', pages) ∧
    reachable s' ∧ length pages = 7%nat.
Proof.
  apply (serve_never_raises one_question_session
           [GetQuiz; PostAnswer OptionAbsent; GetQuiz; PostAnswer (OptionInt 7);
            GetResult; PostStart None NotJson; GetIndex]).
  - apply one_question_reachable.
  - repeat constructor; discriminate.
Defined.

End Routes.
